(** * A shallow embedding of the ignore-pattern matcher of directory-mapper

    The Go source is [src/unnamed/part_002] (the second, active copy of the
    matcher: [NewPatternList], [AddPattern], [splitPattern],
    [PatternList.Matches], [Pattern.matches], [Pattern.matchSegments],
    [matchWildcard]).  Go strings are byte strings; they are modelled as
    [String.string] (whose characters are 8-bit [ascii] bytes).  The target
    platform is Unix: [os.PathSeparator] is ['/'], so [filepath.ToSlash] is
    the identity and [filepath.Clean] is [path.Clean].

    A Go run-time panic (an out-of-range slice) is modelled as [None]. *)

From Stdlib Require Import String Ascii List Bool ZArith Lia.
Import ListNotations.
Open Scope string_scope.
Open Scope bool_scope.

(** ** Go string primitives used by the matcher *)

Module GoStrings.

(** [s[lo:hi]]: panics (here [None]) unless [0 <= lo <= hi <= len(s)]. *)
Definition go_slice (s : string) (lo hi : Z) : option string :=
  if (0 <=? lo)%Z && (lo <=? hi)%Z && (hi <=? Z.of_nat (String.length s))%Z
  then Some (substring (Z.to_nat lo) (Z.to_nat (hi - lo)) s)
  else None.

Definition len (s : string) : Z := Z.of_nat (String.length s).

(** [strings.HasPrefix]: [len(s) >= len(prefix) && s[:len(prefix)] == prefix]. *)
Definition HasPrefix (s prefix : string) : bool :=
  (String.length prefix <=? String.length s)%nat
  && String.eqb (substring 0 (String.length prefix) s) prefix.

(** [strings.HasSuffix]: [len(s) >= len(suffix) && s[len(s)-len(suffix):] == suffix]. *)
Definition HasSuffix (s suffix : string) : bool :=
  (String.length suffix <=? String.length s)%nat
  && String.eqb (substring (String.length s - String.length suffix)
                           (String.length suffix) s) suffix.

(** [strings.Contains]: some position of [s] starts an occurrence of [substr]. *)
Fixpoint Contains (s substr : string) : bool :=
  HasPrefix s substr ||
  match s with
  | EmptyString => false
  | String _ s' => Contains s' substr
  end.

Definition slash : ascii := "/"%char.

(** [strings.Split(s, "/")]: [cur] is the segment being read. *)
Fixpoint split_aux (s cur : string) : list string :=
  match s with
  | EmptyString => [cur]
  | String c s' =>
      if Ascii.eqb c slash then cur :: split_aux s' EmptyString
      else split_aux s' (cur ++ String c EmptyString)
  end.

Definition Split (s : string) : list string := split_aux s EmptyString.

(** [strings.Join(elems, "/")]. *)
Fixpoint Join (elems : list string) : string :=
  match elems with
  | [] => EmptyString
  | [e] => e
  | e :: rest => e ++ "/" ++ Join rest
  end.

Definition nul : ascii := Ascii.ascii_of_nat 0.

(** [strings.ReplaceAll(s, "**", "\x00")]: leftmost, non-overlapping. *)
Fixpoint replace_dstar (s : string) : string :=
  match s with
  | String "*" (String "*" rest) => String nul (replace_dstar rest)
  | String c rest => String c (replace_dstar rest)
  | EmptyString => EmptyString
  end.

(** [strings.ReplaceAll(s, "\x00", "**")]. *)
Fixpoint restore_dstar (s : string) : string :=
  match s with
  | EmptyString => EmptyString
  | String c rest =>
      if Ascii.eqb c nul then String "*" (String "*" (restore_dstar rest))
      else String c (restore_dstar rest)
  end.

(** [strings.TrimSpace], for the ASCII white-space bytes. *)
Definition is_space (c : ascii) : bool :=
  match Ascii.nat_of_ascii c with
  | 9 | 10 | 11 | 12 | 13 | 32 => true
  | _ => false
  end.

Fixpoint trim_left (s : string) : string :=
  match s with
  | String c s' => if is_space c then trim_left s' else s
  | EmptyString => EmptyString
  end.

Fixpoint rev_string (s : string) (acc : string) : string :=
  match s with
  | EmptyString => acc
  | String c s' => rev_string s' (String c acc)
  end.

Definition TrimSpace (s : string) : string :=
  rev_string (trim_left (rev_string (trim_left s) EmptyString)) EmptyString.

(** [filepath.IsAbs] on Unix. *)
Definition IsAbs (p : string) : bool := HasPrefix p "/".

(** [filepath.Clean] (= [path.Clean] on Unix): drop empty and [.] elements,
    let [..] remove the preceding non-[..] element (or vanish at the root,
    or stay when nothing precedes it in a relative path), and return ["."]
    for an empty result. *)
Definition clean_step (rooted : bool) (stk : list string) (seg : string)
  : list string :=
  if String.eqb seg "" || String.eqb seg "." then stk
  else if String.eqb seg ".." then
    match stk with
    | top :: rest => if String.eqb top ".." then ".." :: stk else rest
    | [] => if rooted then [] else [".."]
    end
  else seg :: stk.

Definition Clean (p : string) : string :=
  if String.eqb p "" then "." else
  let rooted := IsAbs p in
  let stk := fold_left (clean_step rooted) (Split p) [] in
  let body := Join (rev stk) in
  if rooted then "/" ++ body
  else if String.eqb body "" then "." else body.

End GoStrings.

Import GoStrings.

(** ** Data model *)

Record Pattern := mkPattern {
  original : string;
  segments : list string;
  isNegation : bool;
  isExact : bool;
  isDir : bool
}.

Record PatternList := mkPatternList {
  patterns : list Pattern;
  basePath : string
}.

(** [splitPattern]. *)
Definition splitPattern (pattern : string) : list string :=
  let pattern := replace_dstar pattern in
  let segs := Split pattern in
  map restore_dstar segs.

(** [PatternList.AddPattern]: [None] is a panic; otherwise the new list and
    the returned [error] ([None] = nil). *)
Definition AddPattern (pl : PatternList) (pattern0 : string)
  : option (PatternList * option string) :=
  let neg := HasPrefix pattern0 "!" in
  let dir := HasSuffix pattern0 "/" in
  match (if neg then go_slice pattern0 1 (len pattern0) else Some pattern0) with
  | None => None
  | Some pattern1 =>
    match (if dir then go_slice pattern1 0 (len pattern1 - 1) else Some pattern1) with
    | None => None
    | Some pattern2 =>
      let pattern := Clean pattern2 in
      let p := {| original := pattern0;
                  isNegation := neg;
                  isDir := dir;
                  segments := splitPattern pattern;
                  isExact := negb (Contains pattern "*") || Contains pattern "?" |} in
      Some ({| patterns := patterns pl ++ [p]; basePath := basePath pl |}, None)
    end
  end.

(** Characters [matchWildcard] escapes with a backslash in its regex. *)
Definition regex_special : string := "[](){}+^$|\.".

(** The regular-expression text [matchWildcard] builds in its loop. *)
Fixpoint regex_body (pattern : string) : string :=
  match pattern with
  | EmptyString => EmptyString
  | String c rest =>
      (if Ascii.eqb c "*" then ".*"
       else if Ascii.eqb c "?" then "."
       else if Contains regex_special (String c EmptyString)
            then String "\" (String c EmptyString)
            else String c EmptyString) ++ regex_body rest
  end.

(** [matchWildcard]: the regex is built first, then the result is decided by
    the special cases that follow it. *)
Definition matchWildcard (pattern path : string) : option bool :=
  let _regex := "^" ++ regex_body pattern ++ "$" in
  if String.eqb pattern "*" then Some true
  else if HasPrefix pattern "*" && HasSuffix pattern "*" then
    match go_slice pattern 1 (len pattern - 1) with
    | Some middle => Some (Contains path middle)
    | None => None
    end
  else if HasPrefix pattern "*" then
    match go_slice pattern 1 (len pattern) with
    | Some suffix => Some (HasSuffix path suffix)
    | None => None
    end
  else if HasSuffix pattern "*" then
    match go_slice pattern 0 (len pattern - 1) with
    | Some prefix => Some (HasPrefix path prefix)
    | None => None
    end
  else Some (String.eqb pattern path).

(** [Pattern.matchSegments]; Go's [||] short-circuits, a panic propagates.
    The inner [fix] walks the path while the pattern list is fixed. *)
Fixpoint matchSegments (patternSegs pathSegs : list string) : option bool :=
  match patternSegs with
  | [] => Some (match pathSegs with [] => true | _ :: _ => false end)
  | patSeg :: patRest =>
    (fix go (pathSegs : list string) : option bool :=
       match pathSegs with
       | [] => Some (forallb (fun seg => String.eqb seg "**") patternSegs)
       | pathSeg :: pathRest =>
           if String.eqb patSeg "**" then
             match matchSegments patRest pathSegs with
             | Some true => Some true
             | Some false => go pathRest
             | None => None
             end
           else
             match matchWildcard patSeg pathSeg with
             | Some true => matchSegments patRest pathRest
             | Some false => Some false
             | None => None
             end
       end) pathSegs
  end.

(** [Pattern.matches]. *)
Definition matches (p : Pattern) (path : string) (isDir0 : bool) : option bool :=
  if isDir p && negb isDir0 then Some false
  else
    let pathSegments := Split path in
    if isExact p then Some (String.eqb (Join (segments p)) path)
    else matchSegments (segments p) pathSegments.

(** The loop of [PatternList.Matches]: every pattern is tried, in order. *)
Fixpoint match_loop (relPath : string) (isDir0 : bool) (ps : list Pattern)
  (result : bool) : option bool :=
  match ps with
  | [] => Some result
  | p :: ps' =>
      match matches p relPath isDir0 with
      | Some true => match_loop relPath isDir0 ps' (negb (isNegation p))
      | Some false => match_loop relPath isDir0 ps' result
      | None => None
      end
  end.

Section Matcher.

(** [filepath.Rel(basepath, targpath)]: [None] is a returned error. *)
Variable Rel : string -> string -> option string.
(** [os.Stat(path)]: [None] is a returned error, [Some d] a [FileInfo]
    whose [IsDir()] is [d].  This is the file-system state the call sees. *)
Variable Stat : string -> option bool.

(** [PatternList.Matches]. *)
Definition Matches (pl : PatternList) (path : string) : option bool :=
  match patterns pl with
  | [] => Some false
  | _ :: _ =>
    match (if IsAbs path then Rel (basePath pl) path else Some path) with
    | None => Some false
    | Some relPath0 =>
      let relPath := Clean relPath0 in
      match Stat path with
      | None => Some false
      | Some isDir0 => match_loop relPath isDir0 (patterns pl) false
      end
    end
  end.

End Matcher.

(** ** Reading a rule file: [NewPatternList] *)

(** The outcome of each I/O operation [NewPatternList] performs on the file. *)
Record RuleFile := mkRuleFile {
  rf_not_exist : bool;            (** [os.IsNotExist] of [os.Stat]'s error *)
  rf_write_err : option string;   (** [os.WriteFile]'s error *)
  rf_open_err : option string;    (** [os.Open]'s error *)
  rf_lines : list string;         (** the lines [scanner.Scan] yields *)
  rf_scan_err : option string     (** [scanner.Err()] once [Scan] stops *)
}.

(** The [for scanner.Scan()] loop. *)
Fixpoint scan_loop (pl : PatternList) (lines : list string)
  (scan_err : option string) : option (option PatternList * option string) :=
  match lines with
  | [] => Some (Some pl, scan_err)
  | line :: rest =>
      let pattern := TrimSpace line in
      if String.eqb pattern "" || HasPrefix pattern "#" then scan_loop pl rest scan_err
      else
        match AddPattern pl pattern with
        | None => None
        | Some (_, Some err) =>
            Some (None, Some ("error adding pattern " ++ pattern ++ ": " ++ err))
        | Some (pl', None) => scan_loop pl' rest scan_err
        end
  end.

(** [NewPatternList]: [None] is a panic, otherwise the returned pair. *)
Definition NewPatternList (fs : RuleFile) (filename basePath0 : string)
  : option (option PatternList * option string) :=
  let pl := {| patterns := []; basePath := basePath0 |} in
  if rf_not_exist fs then
    match rf_write_err fs with
    | Some err => Some (None, Some ("error creating file " ++ filename ++ ": " ++ err))
    | None => Some (Some pl, None)
    end
  else
    match rf_open_err fs with
    | Some err => Some (None, Some ("error opening file " ++ filename ++ ": " ++ err))
    | None => scan_loop pl (rf_lines fs) (rf_scan_err fs)
    end.

(** Compiling a list of pattern lines with [AddPattern], as [NewPatternList]
    does for a readable file. *)
Definition compile (basePath0 : string) (lines : list string) : option PatternList :=
  match NewPatternList (mkRuleFile false None None lines None) ".project_structure_ignore" basePath0 with
  | Some (Some pl, None) => Some pl
  | _ => None
  end.

Definition no_rel (_ _ : string) : option string := None.
Definition stat_file (_ : string) : option bool := Some false.
Definition stat_dir (_ : string) : option bool := Some true.

(** The single compiled rule of one pattern line. *)
Definition rule_of (line : string) : option Pattern :=
  match AddPattern (mkPatternList [] "") line with
  | Some (pl, None) => match patterns pl with [p] => Some p | _ => None end
  | _ => None
  end.

(** ** Reference definitions taken from the spec's words *)

(** The last rule of [ps] that matches [relPath] (spec, 4.2 step 3). *)
Fixpoint last_match (relPath : string) (isDir0 : bool) (ps : list Pattern)
  : option Pattern :=
  match ps with
  | [] => None
  | p :: ps' =>
      match last_match relPath isDir0 ps' with
      | Some q => Some q
      | None => match matches p relPath isDir0 with
                | Some true => Some p
                | _ => None
                end
      end
  end.

Definition last_match_verdict (relPath : string) (isDir0 : bool) (ps : list Pattern) : bool :=
  match last_match relPath isDir0 ps with
  | Some p => negb (isNegation p)
  | None => false
  end.

(** Anchored glob matching as the spec words it: ['*'] matches any run of
    characters (possibly empty), ['?'] exactly one, any other character
    itself. *)
Fixpoint glob_spec (pattern s : string) : bool :=
  match pattern with
  | EmptyString => match s with EmptyString => true | String _ _ => false end
  | String c prest =>
    (fix go (s : string) : bool :=
       match s with
       | EmptyString => Ascii.eqb c "*" && glob_spec prest EmptyString
       | String d srest =>
           if Ascii.eqb c "*" then glob_spec prest s || go srest
           else if Ascii.eqb c "?" then glob_spec prest srest
           else Ascii.eqb c d && glob_spec prest srest
       end) s
  end.

(** A pattern line with a leading ['!'] and a trailing ['/'] removed, as
    [AddPattern] decides them on the line it receives. *)
Definition stripped (line : string) : string :=
  let s1 := if HasPrefix line "!" then substring 1 (String.length line - 1) line
            else line in
  if HasSuffix line "/" then substring 0 (String.length s1 - 1) s1 else s1.

(** The argument pairs of the recursive calls one body of [matchSegments]
    may make. *)
Definition matchSegments_calls (patternSegs pathSegs : list string)
  : list (list string * list string) :=
  match patternSegs, pathSegs with
  | [], _ => []
  | _ :: _, [] => []
  | patSeg :: patRest, _ :: pathRest =>
      if String.eqb patSeg "**" then [(patRest, pathSegs); (patternSegs, pathRest)]
      else [(patRest, pathRest)]
  end.

(** ** The directory walk of [part_002]: [shouldSkipFile], [createTree],
    [printTree], [writeFileContents] *)

Local Set Warnings "-register-all".

Module Walk.

(** [filepath.Join(a, b)]: the elements from the first non-empty one on,
    joined by ['/'] and cleaned; [""] when both are empty. *)
Definition FJoin (a b : string) : string :=
  if negb (String.eqb a "") then Clean (a ++ "/" ++ b)
  else if negb (String.eqb b "") then Clean b
  else "".

(** [filepath.Ext], run on the reversed path: the text from the last ['.']
    of the final element, or [""]. *)
Fixpoint ext_rev (r acc : string) : string :=
  match r with
  | EmptyString => EmptyString
  | String c r' =>
      if Ascii.eqb c "/" then EmptyString
      else if Ascii.eqb c "." then String c acc
      else ext_rev r' (String c acc)
  end.

Definition Ext (path : string) : string := ext_rev (rev_string path EmptyString) EmptyString.

(** The [map[string]bool] tables; a missing key reads as [false]. *)
Definition skipDirs : list string :=
  [".git"; "node_modules"; "bin"; "obj"; "build"; "dist"; "target"; ".idea";
   ".vscode"; "__pycache__"; ".next"; "vendor"].

Definition skipExtensions : list string :=
  [".exe"; ".dll"; ".so"; ".dylib"; ".bin"; ".obj"; ".class"; ".pyc"; ".pdb";
   ".cache"; ".jpg"; ".jpeg"; ".png"; ".gif"; ".ico"; ".pdf"; ".zip"; ".tar";
   ".gz"; ".rar"; ".7z"; ".db"; ".sqlite"; ".mdb"; ".iso"; ".img"; ".log"; ".lock"].

Definition skipFiles : list string :=
  ["project_structure.txt"; ".project_structure_ignore"; ".project_structure_filter";
   ".DS_Store"; "Thumbs.db"; ".gitignore"; ".env"; ".env.local"; "desktop.ini"].

Definition lookup (m : list string) (k : string) : bool := existsb (String.eqb k) m.

Definition maxFileSize : Z := 50 * 1024 * 1024.

(** A directory entry as the walk sees it: the results of the file-system
    calls made on it (an error text, or [None] for success).  Links are not
    modelled: [Info()] and [os.Stat] agree on the kind of the entry. *)
Inductive Entry := mkEntry {
  e_name : string;                (** [entry.Name()] *)
  e_info_err : option string;     (** error of [entry.Info()] *)
  e_isDir : bool;                 (** [IsDir()] *)
  e_size : Z;                     (** [Size()] *)
  e_stat_err : option string;     (** error of [os.Stat] on its path *)
  e_open_ok : bool;               (** [os.Open] on its path succeeds *)
  e_readdir_err : option string;  (** error of [os.ReadDir] on its path *)
  e_children : list Entry         (** [os.ReadDir]'s entries, in its order *)
}.

(** What [os.Stat] reports, inside [PatternList.Matches], on the entry's path. *)
Definition entry_stat (e : Entry) (_ : string) : option bool :=
  match e_stat_err e with None => Some (e_isDir e) | Some _ => None end.

(** Results of a Go function returning [(T, error)], or a panic. *)
Inductive res (A : Type) := Ok (a : A) | Err (msg : string) | Panic.
Arguments Ok {A} a.
Arguments Err {A} msg.
Arguments Panic {A}.

Inductive TreeNode := mkTreeNode {
  name : string;
  isDir : bool;
  children : list TreeNode
}.

Section Walker.

(** [filepath.Rel], as in [PatternList.Matches]. *)
Variable Rel : string -> string -> option string.
(** [strings.ToLower]. *)
Variable ToLower : string -> string.

(** [checkReadPermission] succeeds iff [os.Open] does. *)
Definition checkReadPermission (entry : Entry) : bool := e_open_ok entry.

(** [shouldSkipFile] (the second copy: the matcher is an ignore list). *)
Definition shouldSkipFile (entry : Entry) (fullPath : string)
  (ignoreMatcher : option PatternList) : res bool :=
  match e_info_err entry with
  | Some err => Err ("error getting file info: " ++ err)
  | None =>
    let rest :=
      if lookup skipFiles (e_name entry) then Ok true
      else if e_isDir entry && lookup skipDirs (e_name entry) then Ok true
      else if negb (e_isDir entry) then
        if lookup skipExtensions (ToLower (Ext (e_name entry))) then Ok true
        else if (maxFileSize <? e_size entry)%Z then Ok true
        else if negb (checkReadPermission entry) then Ok true
        else Ok false
      else Ok false in
    match ignoreMatcher with
    | Some pl =>
        match Matches Rel (entry_stat entry) pl fullPath with
        | Some true => Ok true
        | Some false => rest
        | None => Panic
        end
    | None => rest
    end
  end.

(** [createTree]: [e] is the entry found at [root]. *)
Fixpoint createTree (root : string) (ignoreMatcher : option PatternList) (e : Entry)
  {struct e} : res TreeNode :=
  match e with
  | mkEntry nm _ dir _ stat_err _ readdir_err entries =>
    match stat_err with
    | Some err => Err ("error getting root info: " ++ err)
    | None =>
      if negb dir then Ok (mkTreeNode nm dir [])
      else
        match readdir_err with
        | Some err => Err ("error reading directory: " ++ err)
        | None =>
          (fix loop (es : list Entry) (acc : list TreeNode) : res TreeNode :=
             match es with
             | [] => Ok (mkTreeNode nm dir acc)
             | entry :: es' =>
                 let childPath := FJoin root (e_name entry) in
                 match shouldSkipFile entry childPath ignoreMatcher with
                 | Err err => Err ("error checking file " ++ childPath ++ ": " ++ err)
                 | Panic => Panic
                 | Ok true => loop es' acc
                 | Ok false =>
                     match createTree childPath ignoreMatcher entry with
                     | Ok childNode => loop es' (acc ++ [childNode])%list
                     | Err err => Err err
                     | Panic => Panic
                     end
                 end
             end) entries []
        end
    end
  end.

End Walker.

(** [printTree]: the text of each [fmt.Fprintln] call, in order. *)
Fixpoint printTree (node : TreeNode) (prefix : string) (isLast : bool) : list string :=
  match node with
  | mkTreeNode nm dir chs =>
    let currentPrefix :=
      if String.eqb prefix "" then ""
      else if isLast then prefix ++ "└── " else prefix ++ "├── " in
    let displayName := if dir then "[" ++ nm ++ "]" else nm in
    let childPrefix :=
      if String.eqb prefix "" then "    "
      else if isLast then prefix ++ "    " else prefix ++ "│   " in
    (currentPrefix ++ displayName) ::
    (fix loop (cs : list TreeNode) (i : nat) : list string :=
       match cs with
       | [] => []
       | child :: cs' =>
           (printTree child childPrefix (Nat.eqb i (List.length chs - 1)) ++ loop cs' (S i))%list
       end) chs 0
  end.

Definition nl : string := String (Ascii.ascii_of_nat 10) EmptyString.

(** What [os.Stat] reports on a path. *)
Inductive StatRes := StOk | StNotExist | StErr (msg : string).

Section Contents.

Variable fs_stat : string -> StatRes.
(** [os.ReadFile]: the contents, or [None] on an error. *)
Variable fs_read : string -> option string.

(** [writeFileContents]: the writes to [output], in order, and the returned
    error (warnings go to stderr and are not part of the output). *)
Fixpoint writeFileContents (node : TreeNode) (currentPath : string)
  : list string * option string :=
  match node with
  | mkTreeNode nm dir chs =>
    let fullPath := FJoin currentPath nm in
    let head : (list string * option string) + list string :=
      if negb dir then
        match fs_stat fullPath with
        | StNotExist => inl ([], None)
        | StErr err => inl ([], Some ("error checking file " ++ fullPath ++ ": " ++ err))
        | StOk =>
            match fs_read fullPath with
            | None => inl ([], None)
            | Some content =>
                inr ["<" ++ nm ++ ">" ++ nl; content; nl ++ "</" ++ nm ++ ">" ++ nl]
            end
        end
      else inr [] in
    match head with
    | inl r => r
    | inr w0 =>
      (fix loop (cs : list TreeNode) (w : list string) : list string * option string :=
         match cs with
         | [] => (w, None)
         | child :: cs' =>
             match writeFileContents child fullPath with
             | (wc, Some err) => ((w ++ wc)%list, Some err)
             | (wc, None) => loop cs' (w ++ wc)%list
             end
         end) chs w0
    end
  end.

End Contents.

End Walk.

(** A string that starts with a byte other than ['/']. *)
Definition starts_off_slash (x : string) : Prop :=
  exists c s, x = String c s /\ Ascii.eqb c slash = false.

(** ** Reference definitions for the walk's properties *)

Module WalkSpec.
Import Walk.

(** The line [printTree] is expected to end with for a node. *)
Definition display (t : TreeNode) : string :=
  if isDir t then "[" ++ name t ++ "]" else name t.

(** The nodes of a tree in preorder. *)
Fixpoint preorder (t : TreeNode) : list TreeNode :=
  match t with
  | mkTreeNode _ _ cs => t :: concat (map preorder cs)
  end.

(** Every non-directory node has no children. *)
Fixpoint leaf_files (t : TreeNode) : bool :=
  match t with
  | mkTreeNode _ d cs => (d || match cs with [] => true | _ :: _ => false end)
                         && forallb leaf_files cs
  end.

(** The [(path, name)] of every non-directory node, in preorder, the path
    being built with [filepath.Join] from [currentPath]. *)
Fixpoint file_paths (t : TreeNode) (currentPath : string) : list (string * string) :=
  match t with
  | mkTreeNode nm d cs =>
      if d then concat (map (fun c => file_paths c (FJoin currentPath nm)) cs)
      else [(FJoin currentPath nm, nm)]
  end.

Section Spec.
Variable Rel : string -> string -> option string.
Variable ToLower : string -> string.

(** The entries [createTree] keeps: [shouldSkipFile] returned [false]. *)
Definition kept (m : option PatternList) (root : string) (ce : Entry) : bool :=
  match shouldSkipFile Rel ToLower ce (FJoin root (e_name ce)) m with
  | Ok false => true
  | _ => false
  end.

(** A tree all of whose nodes below the root come, in order, from entries
    [shouldSkipFile] kept at their path; a file has no children. *)
Inductive kept_tree (m : option PatternList) : string -> Entry -> TreeNode -> Prop :=
| kept_file (root : string) (e : Entry) (t : TreeNode) :
    name t = e_name e -> e_isDir e = false -> isDir t = false -> children t = [] ->
    kept_tree m root e t
| kept_dir (root : string) (e : Entry) (t : TreeNode) :
    name t = e_name e -> e_isDir e = true -> isDir t = true ->
    Forall2 (fun ce c => kept_tree m (FJoin root (e_name ce)) ce c)
            (filter (kept m root) (e_children e)) (children t) ->
    kept_tree m root e t.

End Spec.

Section ContentsSpec.
Variable fs_stat : string -> StatRes.
Variable fs_read : string -> option string.

(** The writes for one file: its block when it exists and is readable. *)
Definition file_block (pn : string * string) : list string :=
  let (p, nm) := pn in
  match fs_stat p with
  | StOk =>
      match fs_read p with
      | Some content => ["<" ++ nm ++ ">" ++ nl; content; nl ++ "</" ++ nm ++ ">" ++ nl]
      | None => []
      end
  | _ => []
  end.

Definition stat_error_free (p : string) : Prop :=
  match fs_stat p with StErr _ => False | _ => True end.

End ContentsSpec.

End WalkSpec.

(** ** Lemmas on the Go string primitives *)

Lemma substring_length (s : string) (n m : nat) :
  n + m <= String.length s -> String.length (substring n m s) = m.
Proof.
  revert n m; induction s as [|c s IH]; intros n m H; simpl in *.
  - destruct n, m; simpl; lia.
  - destruct n as [|n].
    + destruct m as [|m]; simpl; [reflexivity|]. f_equal.
      rewrite (IH 0 m); lia.
    + apply IH; lia.
Qed.

Lemma go_slice_ok (s : string) (lo hi : Z) :
  (0 <= lo)%Z -> (lo <= hi)%Z -> (hi <= len s)%Z ->
  go_slice s lo hi = Some (substring (Z.to_nat lo) (Z.to_nat (hi - lo)) s).
Proof.
  intros H1 H2 H3. unfold go_slice, len in *.
  apply Z.leb_le in H1, H2, H3. rewrite H1, H2, H3. reflexivity.
Qed.

Lemma HasPrefix_length (s p : string) :
  HasPrefix s p = true -> String.length p <= String.length s.
Proof. unfold HasPrefix; intros H; apply andb_true_iff in H as [H _]; apply Nat.leb_le; exact H. Qed.

Lemma HasSuffix_length (s p : string) :
  HasSuffix s p = true -> String.length p <= String.length s.
Proof. unfold HasSuffix; intros H; apply andb_true_iff in H as [H _]; apply Nat.leb_le; exact H. Qed.

Lemma HasPrefix_char (s : string) (c : ascii) :
  HasPrefix s (String c EmptyString) = true -> exists rest, s = String c rest.
Proof.
  destruct s as [|a rest]; unfold HasPrefix; simpl; [discriminate|].
  intros H. destruct (Ascii.eqb a c) eqn:E; [|discriminate].
  apply Ascii.eqb_eq in E; subst; eauto.
Qed.

Lemma star_pattern_length (p : string) :
  String.eqb p "*" = false -> HasPrefix p "*" = true -> HasSuffix p "*" = true ->
  2 <= String.length p.
Proof.
  intros E1 E2 E3. destruct (HasPrefix_char _ _ E2) as [rest ->].
  destruct rest as [|d rest]; simpl; [discriminate|lia].
Qed.

(** ** Totality: no panic in the matcher *)

Lemma matchWildcard_total (pattern path : string) :
  exists b, matchWildcard pattern path = Some b.
Proof.
  unfold matchWildcard.
  destruct (String.eqb pattern "*") eqn:E1; [eauto|].
  destruct (HasPrefix pattern "*") eqn:E2, (HasSuffix pattern "*") eqn:E3; simpl.
  - pose proof (star_pattern_length _ E1 E2 E3).
    rewrite go_slice_ok by (unfold len; lia). eauto.
  - apply HasPrefix_length in E2; simpl in E2.
    rewrite go_slice_ok by (unfold len; lia). eauto.
  - apply HasSuffix_length in E3; simpl in E3.
    rewrite go_slice_ok by (unfold len; lia). eauto.
  - eauto.
Qed.

Lemma matchSegments_total (patternSegs pathSegs : list string) :
  exists b, matchSegments patternSegs pathSegs = Some b.
Proof.
  revert pathSegs; induction patternSegs as [|patSeg patRest IH]; intros pathSegs.
  - simpl; eauto.
  - induction pathSegs as [|pathSeg pathRest IHp]; simpl; [eauto|].
    simpl in IHp.
    destruct (String.eqb patSeg "**").
    + destruct (IH (pathSeg :: pathRest)) as [[|] ->]; eauto.
    + destruct (matchWildcard_total patSeg pathSeg) as [[|] ->]; eauto.
Qed.

Lemma matches_total (p : Pattern) (path : string) (d : bool) :
  exists b, matches p path d = Some b.
Proof.
  unfold matches. destruct (isDir p && negb d); [eauto|].
  destruct (isExact p); [eauto|]. apply matchSegments_total.
Qed.

Lemma match_loop_last (relPath : string) (d : bool) (ps : list Pattern) (acc : bool) :
  match_loop relPath d ps acc =
  Some (match last_match relPath d ps with
        | Some p => negb (isNegation p)
        | None => acc
        end).
Proof.
  revert acc; induction ps as [|p ps IH]; intros acc; simpl; [reflexivity|].
  destruct (matches_total p relPath d) as [[|] E]; rewrite E.
  - rewrite IH. destruct (last_match relPath d ps); reflexivity.
  - rewrite IH. destruct (last_match relPath d ps); reflexivity.
Qed.

Lemma go_slice_from1 (s : string) :
  1 <= String.length s ->
  go_slice s 1 (len s) = Some (substring 1 (String.length s - 1) s).
Proof.
  intros H. rewrite go_slice_ok by (unfold len; lia).
  f_equal. f_equal. unfold len. lia.
Qed.

Lemma go_slice_drop_last (s : string) :
  1 <= String.length s ->
  go_slice s 0 (len s - 1) = Some (substring 0 (String.length s - 1) s).
Proof.
  intros H. rewrite go_slice_ok by (unfold len; lia).
  f_equal. f_equal. unfold len. lia.
Qed.

Lemma neg_dir_length (line : string) :
  HasPrefix line "!" = true -> HasSuffix line "/" = true -> 2 <= String.length line.
Proof.
  intros E1 E2. destruct (HasPrefix_char _ _ E1) as [rest ->].
  destruct rest as [|d rest]; simpl; [discriminate|lia].
Qed.

(** The rule [AddPattern] appends for a line: it never panics and never
    returns an error. *)
Definition compiled_rule (line : string) : Pattern :=
  let pattern := Clean (stripped line) in
  {| original := line;
     segments := splitPattern pattern;
     isNegation := HasPrefix line "!";
     isExact := negb (Contains pattern "*") || Contains pattern "?";
     isDir := HasSuffix line "/" |}.

Lemma AddPattern_ok (pl : PatternList) (line : string) :
  AddPattern pl line =
  Some ({| patterns := patterns pl ++ [compiled_rule line]; basePath := basePath pl |}, None).
Proof.
  unfold AddPattern, compiled_rule, stripped.
  destruct (HasPrefix line "!") eqn:En, (HasSuffix line "/") eqn:Ed.
  - pose proof (neg_dir_length _ En Ed).
    rewrite go_slice_from1 by lia.
    rewrite go_slice_drop_last by (rewrite substring_length; lia).
    reflexivity.
  - apply HasPrefix_length in En; simpl in En.
    rewrite go_slice_from1 by lia. reflexivity.
  - apply HasSuffix_length in Ed; simpl in Ed.
    rewrite go_slice_drop_last by lia. reflexivity.
  - reflexivity.
Qed.

Lemma rule_of_ok (line : string) : rule_of line = Some (compiled_rule line).
Proof. unfold rule_of. rewrite AddPattern_ok. reflexivity. Qed.

Lemma Matches_total (Rel : string -> string -> option string)
  (Stat : string -> option bool) (pl : PatternList) (path : string) :
  exists b, Matches Rel Stat pl path = Some b.
Proof.
  unfold Matches. destruct (patterns pl) as [|p ps]; [eauto|].
  destruct (if IsAbs path then Rel (basePath pl) path else Some path); [|eauto].
  destruct (Stat path); [|eauto].
  rewrite match_loop_last. eauto.
Qed.

(** ** Claims *)

(** C1. Last match wins: once the path is made relative and the stat
    succeeds, [PatternList.Matches] returns the negation of the [!] flag of
    the last rule that matches the cleaned path, and [false] if none does;
    with the rules [*.log] and [!keep.log], [keep.log] is not excluded and
    [debug.log] is. *)
Theorem Matches_last_match_wins
  (Rel : string -> string -> option string) (Stat : string -> option bool)
  (pl : PatternList) (path relPath : string) (d : bool) :
  (if IsAbs path then Rel (basePath pl) path else Some path) = Some relPath ->
  Stat path = Some d ->
  Matches Rel Stat pl path = Some (last_match_verdict (Clean relPath) d (patterns pl))
  /\ (forall pl_log, compile (basePath pl) ["*.log"; "!keep.log"] = Some pl_log ->
      Matches Rel (fun _ => Some d) pl_log "keep.log" = Some false
      /\ Matches Rel (fun _ => Some d) pl_log "debug.log" = Some true).
Proof.
  intros Hrel Hstat. split.
  - unfold Matches, last_match_verdict. rewrite Hrel, Hstat.
    destruct (patterns pl) as [|p ps] eqn:Ep; [reflexivity|].
    rewrite <- Ep, match_loop_last. reflexivity.
  - intros pl_log Hc. unfold compile, NewPatternList in Hc. simpl in Hc.
    injection Hc as <-. split; reflexivity.
Qed.

Lemma Matches_last_match_wins_witness :
  Matches no_rel stat_file (mkPatternList [compiled_rule "*.log"; compiled_rule "!keep.log"] "/proj") "debug.log"
  = Some (last_match_verdict "debug.log" false [compiled_rule "*.log"; compiled_rule "!keep.log"])
  /\ last_match_verdict "debug.log" false [compiled_rule "*.log"; compiled_rule "!keep.log"] = true.
Proof.
  split.
  - apply (Matches_last_match_wins no_rel stat_file
             (mkPatternList [compiled_rule "*.log"; compiled_rule "!keep.log"] "/proj")
             "debug.log" "debug.log" false); reflexivity.
  - vm_compute. reflexivity.
Defined.

(** C2. Single-segment matching, run on a segment with an interior ['*']:
    [matchWildcard "a*b" "axb"] is [false] although anchored glob matching
    of ["a*b"] accepts ["axb"], and the rule [a*b] does not match the path
    [axb]; the end-anchored forms do behave as globs: [*.go] matches
    [main.go] and not [src/main.go]. *)
Theorem matchWildcard_interior_star_diverges :
  matchWildcard "a*b" "axb" = Some false
  /\ glob_spec "a*b" "axb" = true
  /\ matches (compiled_rule "a*b") "axb" false = Some false
  /\ matches (compiled_rule "*.go") "main.go" false = Some true
  /\ matches (compiled_rule "*.go") "src/main.go" false = Some false.
Proof. repeat split; vm_compute; reflexivity. Qed.

(** C3 (as stated, refuted).  The claim that a rule is exact iff the
    stripped line has neither ['*'] nor ['?'] fails on the line [a?c]
    (exact although it has ['?']) and on [*/..] (cleaned to ["."], hence
    exact although the stripped line has ['*']). *)
Lemma exact_flag_iff_fails :
  ~ (forall line r, rule_of line = Some r ->
       (isExact r = true <->
        Contains (stripped line) "*" = false /\ Contains (stripped line) "?" = false))
  /\ rule_of "*/.." = Some (compiled_rule "*/..")
  /\ isExact (compiled_rule "*/..") = true
  /\ Contains (stripped "*/..") "*" = true.
Proof.
  split; [|vm_compute; repeat split].
  intros H. specialize (H "a?c" (compiled_rule "a?c") (rule_of_ok "a?c")).
  destruct H as [H _]. vm_compute in H. destruct (H eq_refl) as [_ H2].
  discriminate H2.
Qed.

(** C3 (amended).  [AddPattern] computes the exact flag on the cleaned
    text (the line without its leading ['!'] and trailing ['/'], passed
    through [filepath.Clean]): when that text has no ['?'], the appended
    rule is exact iff the text has no ['*']. *)
Theorem AddPattern_exact_flag (pl : PatternList) (line : string) :
  Contains (Clean (stripped line)) "?" = false ->
  exists r, AddPattern pl line = Some (mkPatternList (patterns pl ++ [r]) (basePath pl), None)
    /\ (isExact r = true <-> Contains (Clean (stripped line)) "*" = false).
Proof.
  intros Hq. exists (compiled_rule line). split; [apply AddPattern_ok|].
  unfold compiled_rule; simpl. rewrite Hq, orb_false_r.
  destruct (Contains (Clean (stripped line)) "*"); simpl; split; congruence.
Qed.

Lemma AddPattern_exact_flag_witness :
  exists r, AddPattern (mkPatternList [] "/proj") "src/*.go" = Some (mkPatternList ([] ++ [r]) "/proj", None)
    /\ (isExact r = true <-> Contains (Clean (stripped "src/*.go")) "*" = false).
Proof.
  apply (AddPattern_exact_flag (mkPatternList [] "/proj") "src/*.go"). vm_compute. reflexivity.
Defined.

(** C4. A ['**'] segment matches zero or more path segments: with a path
    segment left, it succeeds iff the rest of the pattern matches the whole
    path or the ['**'] matches the path without its first segment; on an
    exhausted path the pattern succeeds iff all its segments are ['**'];
    [**/test.txt] matches [test.txt], [a/test.txt] and [a/b/test.txt], and
    [a/test.txt] matches exactly the path [a/test.txt]. *)
Theorem matchSegments_double_star (ps : list string) (x : string) (xs : list string)
  (b1 b2 : bool) :
  matchSegments ps (x :: xs) = Some b1 ->
  matchSegments ("**" :: ps) xs = Some b2 ->
  matchSegments ("**" :: ps) (x :: xs) = Some (b1 || b2)
  /\ matchSegments [] [] = Some true
  /\ (forall p ps', matchSegments (p :: ps') [] =
                    Some (forallb (fun seg => String.eqb seg "**") (p :: ps')))
  /\ (forall d, matches (compiled_rule "**/test.txt") "test.txt" d = Some true
          /\ matches (compiled_rule "**/test.txt") "a/test.txt" d = Some true
          /\ matches (compiled_rule "**/test.txt") "a/b/test.txt" d = Some true)
  /\ (forall path d, matches (compiled_rule "a/test.txt") path d
                     = Some (String.eqb "a/test.txt" path)).
Proof.
  intros H1 H2. split; [|split; [|split; [|split]]].
  - simpl in H2 |- *. rewrite H1. destruct b1; [reflexivity|exact H2].
  - reflexivity.
  - intros p ps'. reflexivity.
  - intros d. vm_compute. repeat split.
  - intros path d. reflexivity.
Qed.

Lemma matchSegments_double_star_witness :
  matchSegments ("**" :: ["test.txt"]) ["a"; "test.txt"] = Some (false || true).
Proof.
  apply (matchSegments_double_star ["test.txt"] "a" ["test.txt"] false true);
    vm_compute; reflexivity.
Defined.

(** C5. A rule compiled from a line ending in ['/'] never matches a
    non-directory; the rule [build/] excludes the directory [build] and
    excludes no file. *)
Theorem dir_only_rule_skips_files (pl : PatternList) (line : string) :
  HasSuffix line "/" = true ->
  (exists r, AddPattern pl line = Some (mkPatternList (patterns pl ++ [r]) (basePath pl), None)
     /\ isDir r = true /\ forall path, matches r path false = Some false)
  /\ (forall Rel Stat, Stat "build" = Some true ->
        Matches Rel Stat (mkPatternList [compiled_rule "build/"] (basePath pl)) "build" = Some true)
  /\ (forall Rel Stat path, Stat path = Some false ->
        Matches Rel Stat (mkPatternList [compiled_rule "build/"] (basePath pl)) path = Some false).
Proof.
  intros Hd. split; [|split].
  - exists (compiled_rule line). split; [apply AddPattern_ok|].
    unfold compiled_rule, matches; simpl. rewrite Hd. split; reflexivity.
  - intros Rel Stat Hs. unfold Matches; simpl. rewrite Hs. reflexivity.
  - intros Rel Stat path Hs. unfold Matches; simpl.
    destruct (if IsAbs path then Rel (basePath pl) path else Some path); [|reflexivity].
    rewrite Hs. reflexivity.
Qed.

Lemma dir_only_rule_skips_files_witness :
  Matches no_rel stat_file (mkPatternList [compiled_rule "build/"] "/proj") "build" = Some false.
Proof.
  apply (dir_only_rule_skips_files (mkPatternList [] "/proj") "build/"); reflexivity.
Defined.

(** C6. [PatternList.Matches] fails open and never panics: it always
    returns a boolean, and it returns [false] when an absolute path cannot
    be made relative to the base directory or when [os.Stat] fails. *)
Theorem Matches_fail_open
  (Rel : string -> string -> option string) (Stat : string -> option bool)
  (pl : PatternList) (path : string) :
  (exists b, Matches Rel Stat pl path = Some b)
  /\ (IsAbs path = true -> Rel (basePath pl) path = None ->
      Matches Rel Stat pl path = Some false)
  /\ (Stat path = None -> Matches Rel Stat pl path = Some false).
Proof.
  split; [apply Matches_total|split].
  - intros Ha Hr. unfold Matches. rewrite Ha, Hr.
    destruct (patterns pl); reflexivity.
  - intros Hs. unfold Matches.
    destruct (patterns pl); [reflexivity|].
    destruct (if IsAbs path then Rel (basePath pl) path else Some path); [|reflexivity].
    rewrite Hs. reflexivity.
Qed.

Lemma Matches_fail_open_witness :
  Matches no_rel (fun _ => None) (mkPatternList [compiled_rule "*.log"] "/proj") "/other/a.log"
  = Some false.
Proof.
  apply (Matches_fail_open no_rel (fun _ => None)
           (mkPatternList [compiled_rule "*.log"] "/proj") "/other/a.log");
    reflexivity.
Defined.

(** C7. The verdict of [PatternList.Matches] is a boolean determined by the
    rule list, the base directory, the path and what [os.Stat] reports for
    the path: two calls that see the same stat result return the same
    boolean. *)
Theorem Matches_deterministic
  (Rel : string -> string -> option string) (Stat1 Stat2 : string -> option bool)
  (pl : PatternList) (path : string) :
  Stat1 path = Stat2 path ->
  exists b, Matches Rel Stat1 pl path = Some b /\ Matches Rel Stat2 pl path = Some b.
Proof.
  intros Hs. destruct (Matches_total Rel Stat1 pl path) as [b Hb].
  exists b. split; [exact Hb|]. rewrite <- Hb. unfold Matches. rewrite Hs. reflexivity.
Qed.

Lemma Matches_deterministic_witness :
  exists b, Matches no_rel stat_dir (mkPatternList [compiled_rule "build/"] "/proj") "build" = Some b
    /\ Matches no_rel (fun p => if String.eqb p "build" then Some true else None)
         (mkPatternList [compiled_rule "build/"] "/proj") "build" = Some b.
Proof.
  apply (Matches_deterministic no_rel stat_dir
           (fun p => if String.eqb p "build" then Some true else None)
           (mkPatternList [compiled_rule "build/"] "/proj") "build").
  reflexivity.
Defined.

Lemma scan_loop_ok (pl : PatternList) (lines : list string) (scan_err : option string) :
  exists pl', scan_loop pl lines scan_err = Some (Some pl', scan_err).
Proof.
  revert pl; induction lines as [|line rest IH]; intros pl; simpl; [eauto|].
  destruct (String.eqb (TrimSpace line) "" || HasPrefix (TrimSpace line) "#"); [apply IH|].
  rewrite AddPattern_ok. apply IH.
Qed.

(** C8. Compilation never fails on pattern text: [AddPattern] returns no
    error (and does not panic) on any line, and [NewPatternList] returns an
    error only when creating, opening or scanning the rule file failed. *)
Theorem compile_never_fails_on_text :
  (forall pl line, exists pl', AddPattern pl line = Some (pl', None))
  /\ (forall fs filename basePath0,
        exists r err, NewPatternList fs filename basePath0 = Some (r, err)
          /\ (err <> None ->
              rf_write_err fs <> None \/ rf_open_err fs <> None \/ rf_scan_err fs <> None)).
Proof.
  split.
  - intros pl line. rewrite AddPattern_ok. eauto.
  - intros fs filename basePath0. unfold NewPatternList.
    destruct (rf_not_exist fs).
    + destruct (rf_write_err fs) as [e|] eqn:Ew; do 2 eexists; split; try reflexivity.
      * intros _. left. congruence.
      * intros H. congruence.
    + destruct (rf_open_err fs) as [e|] eqn:Eo.
      * do 2 eexists; split; [reflexivity|]. intros _. right; left. congruence.
      * destruct (scan_loop_ok {| patterns := []; basePath := basePath0 |}
                    (rf_lines fs) (rf_scan_err fs)) as [pl' ->].
        do 2 eexists; split; [reflexivity|]. intros H. right; right. exact H.
Qed.

Definition rule_file_read_error : RuleFile :=
  mkRuleFile false None None ["*.log"; "[unclosed*"] (Some "read error").

Lemma compile_never_fails_on_text_witness :
  rf_write_err rule_file_read_error <> None \/ rf_open_err rule_file_read_error <> None
  \/ rf_scan_err rule_file_read_error <> None.
Proof.
  destruct (proj2 compile_never_fails_on_text rule_file_read_error "f" "/proj")
    as (r & err & H1 & H2).
  apply H2. vm_compute in H1. injection H1 as _ <-. discriminate.
Defined.

(** C9. A pattern segment that neither starts nor ends with ['*'] (so also
    one with ['?'] or an interior ['*']) is compared with the path segment
    byte for byte; the regex [matchWildcard] builds plays no part. *)
Theorem matchWildcard_literal_fallback (pattern path : string) :
  HasPrefix pattern "*" = false -> HasSuffix pattern "*" = false ->
  matchWildcard pattern path = Some (String.eqb pattern path).
Proof.
  intros Hp Hs. unfold matchWildcard.
  destruct (String.eqb pattern "*") eqn:E.
  - apply String.eqb_eq in E. subst. discriminate Hp.
  - rewrite Hp, Hs. reflexivity.
Qed.

Lemma matchWildcard_literal_fallback_witness :
  matchWildcard "a?c" "abc" = Some (String.eqb "a?c" "abc")
  /\ String.eqb "a?c" "abc" = false.
Proof.
  split; [apply matchWildcard_literal_fallback; reflexivity | reflexivity].
Defined.

(** C10. Every recursive call of [matchSegments] is on a pair of lists
    whose total length is smaller, and the function returns a boolean on
    every input. *)
Theorem matchSegments_terminates (patternSegs pathSegs : list string) :
  (forall c, In c (matchSegments_calls patternSegs pathSegs) ->
     length (fst c) + length (snd c) < length patternSegs + length pathSegs)
  /\ exists b, matchSegments patternSegs pathSegs = Some b.
Proof.
  split; [|apply matchSegments_total].
  destruct patternSegs as [|p ps], pathSegs as [|x xs]; simpl; try tauto.
  destruct (String.eqb p "**"); simpl.
  - intros c [<-|[<-|[]]]; simpl; lia.
  - intros c [<-|[]]; simpl; lia.
Qed.

Lemma matchSegments_terminates_witness :
  length ["test.txt"] + length ["a"; "test.txt"] < length ["**"; "test.txt"] + length ["a"; "test.txt"].
Proof.
  apply (proj1 (matchSegments_terminates ["**"; "test.txt"] ["a"; "test.txt"])
           (["test.txt"], ["a"; "test.txt"])).
  simpl. left. reflexivity.
Defined.

(** ** Further properties of the matcher *)

Lemma last_match_in (relPath : string) (d : bool) (ps : list Pattern) (p : Pattern) :
  last_match relPath d ps = Some p -> In p ps.
Proof.
  induction ps as [|q ps IH]; simpl; [discriminate|].
  destruct (last_match relPath d ps) as [q'|].
  - intros H. injection H as <-. right. apply IH. reflexivity.
  - destruct (matches q relPath d) as [[|]|]; intros H; try discriminate.
    injection H as <-. left. reflexivity.
Qed.

Lemma match_loop_app (relPath : string) (d : bool) (ps qs : list Pattern) (acc : bool) :
  match_loop relPath d (ps ++ qs) acc =
  match match_loop relPath d ps acc with
  | Some b => match_loop relPath d qs b
  | None => None
  end.
Proof.
  revert acc; induction ps as [|p ps IH]; intros acc; simpl; [reflexivity|].
  destruct (matches p relPath d) as [[|]|]; auto.
Qed.

Lemma Matches_verdict
  (Rel : string -> string -> option string) (Stat : string -> option bool)
  (pl : PatternList) (path relPath : string) (d : bool) :
  (if IsAbs path then Rel (basePath pl) path else Some path) = Some relPath ->
  Stat path = Some d ->
  Matches Rel Stat pl path = Some (last_match_verdict (Clean relPath) d (patterns pl)).
Proof.
  intros Hr Hs. unfold Matches, last_match_verdict. rewrite Hr, Hs.
  destruct (patterns pl) as [|p ps] eqn:Ep; [reflexivity|].
  rewrite <- Ep, match_loop_last. reflexivity.
Qed.

Lemma last_match_snoc (relPath : string) (d : bool) (ps : list Pattern) (q : Pattern) :
  last_match relPath d (ps ++ [q]) =
  match matches q relPath d with
  | Some true => Some q
  | _ => last_match relPath d ps
  end.
Proof.
  induction ps as [|p ps IH]; simpl.
  - destruct (matches q relPath d) as [[|]|]; reflexivity.
  - rewrite IH. destruct (matches q relPath d) as [[|]|]; reflexivity.
Qed.

(** A rule list made only of negated ([!]) rules never excludes a path. *)
Theorem Matches_negations_never_exclude
  (Rel : string -> string -> option string) (Stat : string -> option bool)
  (pl : PatternList) (path : string) :
  Forall (fun p => isNegation p = true) (patterns pl) ->
  Matches Rel Stat pl path = Some false.
Proof.
  intros Hneg. unfold Matches.
  destruct (patterns pl) as [|p ps] eqn:Ep; [reflexivity|].
  destruct (if IsAbs path then Rel (basePath pl) path else Some path) as [r|]; [|reflexivity].
  destruct (Stat path) as [d|]; [|reflexivity].
  rewrite match_loop_last.
  destruct (last_match (Clean r) d (p :: ps)) as [q|] eqn:Eq; [|reflexivity].
  apply last_match_in in Eq. rewrite Forall_forall in Hneg.
  rewrite (Hneg q Eq). reflexivity.
Qed.

Lemma Matches_negations_never_exclude_witness :
  Matches no_rel stat_file (mkPatternList [compiled_rule "!keep.log"] "/proj") "keep.log"
  = Some false.
Proof.
  apply Matches_negations_never_exclude. repeat constructor.
Defined.

(** Adding a rule with [AddPattern] only matters for the paths it matches:
    there the verdict becomes the negation of its [!] flag, elsewhere the
    verdict of the shorter list is kept. *)
Theorem Matches_after_AddPattern
  (Rel : string -> string -> option string) (Stat : string -> option bool)
  (pl : PatternList) (line path relPath : string) (d : bool) :
  (if IsAbs path then Rel (basePath pl) path else Some path) = Some relPath ->
  Stat path = Some d ->
  exists pl', AddPattern pl line = Some (pl', None)
    /\ Matches Rel Stat pl' path =
       match matches (compiled_rule line) (Clean relPath) d with
       | Some true => Some (negb (HasPrefix line "!"))
       | _ => Matches Rel Stat pl path
       end.
Proof.
  intros Hr Hs. rewrite AddPattern_ok. eexists; split; [reflexivity|].
  rewrite (Matches_verdict Rel Stat _ path relPath d) by assumption.
  rewrite (Matches_verdict Rel Stat pl path relPath d) by assumption.
  simpl. unfold last_match_verdict. rewrite last_match_snoc.
  destruct (matches_total (compiled_rule line) (Clean relPath) d) as [[|] ->]; reflexivity.
Qed.

Lemma Matches_after_AddPattern_witness :
  exists pl', AddPattern (mkPatternList [compiled_rule "*.log"] "/proj") "!keep.log" = Some (pl', None)
    /\ Matches no_rel stat_file pl' "keep.log" =
       match matches (compiled_rule "!keep.log") (Clean "keep.log") false with
       | Some true => Some (negb (HasPrefix "!keep.log" "!"))
       | _ => Matches no_rel stat_file (mkPatternList [compiled_rule "*.log"] "/proj") "keep.log"
       end.
Proof.
  apply (Matches_after_AddPattern no_rel stat_file (mkPatternList [compiled_rule "*.log"] "/proj")
           "!keep.log" "keep.log" "keep.log" false); reflexivity.
Defined.

(** Without a ['**'] segment, [matchSegments] only succeeds on a path with
    exactly as many segments as the pattern: no segment spans a ['/']. *)
Theorem matchSegments_no_dstar_same_length (patternSegs pathSegs : list string) :
  ~ In "**" patternSegs ->
  matchSegments patternSegs pathSegs = Some true ->
  List.length patternSegs = List.length pathSegs.
Proof.
  revert pathSegs; induction patternSegs as [|p ps IH]; intros pathSegs Hn Hm.
  - destruct pathSegs; [reflexivity|discriminate].
  - destruct pathSegs as [|x xs]; simpl in Hm.
    + injection Hm as Hm. apply andb_true_iff in Hm as [Hp _]. apply String.eqb_eq in Hp.
      subst. exfalso. apply Hn. left. reflexivity.
    + destruct (String.eqb p "**") eqn:Ep.
      { apply String.eqb_eq in Ep. subst. exfalso. apply Hn. left. reflexivity. }
      destruct (matchWildcard p x) as [[|]|]; try discriminate.
      simpl. f_equal. apply IH; [|exact Hm]. intros H. apply Hn. right. exact H.
Qed.

Lemma matchSegments_no_dstar_same_length_witness :
  List.length ["*.go"] = List.length ["main.go"].
Proof.
  apply (matchSegments_no_dstar_same_length ["*.go"] ["main.go"]);
    [simpl; intros [H|[]]; discriminate | reflexivity].
Defined.

Lemma matchSegments_dstar_any (pathSegs : list string) :
  matchSegments ["**"] pathSegs = Some true.
Proof.
  induction pathSegs as [|x xs IH]; [reflexivity|].
  simpl in IH |- *. exact IH.
Qed.

(** The rule [**] (and [**/]) matches every path, whatever its depth: it
    excludes every candidate whose stat and relative-path conversion
    succeed (directories only, for [**/]). *)
Theorem Matches_double_star_rule_excludes_all
  (Rel : string -> string -> option string) (Stat : string -> option bool)
  (base path relPath : string) (d : bool) :
  (if IsAbs path then Rel base path else Some path) = Some relPath ->
  Stat path = Some d ->
  Matches Rel Stat (mkPatternList [compiled_rule "**"] base) path = Some true
  /\ Matches Rel Stat (mkPatternList [compiled_rule "**/"] base) path = Some d.
Proof.
  intros Hr Hs.
  assert (E1 : compiled_rule "**" = mkPattern "**" ["**"] false false false)
    by (vm_compute; reflexivity).
  assert (E2 : compiled_rule "**/" = mkPattern "**/" ["**"] false false true)
    by (vm_compute; reflexivity).
  unfold Matches; simpl. rewrite Hr, Hs, E1, E2. unfold matches; simpl.
  rewrite matchSegments_dstar_any. destruct d; split; reflexivity.
Qed.

Lemma Matches_double_star_rule_excludes_all_witness :
  Matches no_rel stat_file (mkPatternList [compiled_rule "**"] "/proj") "a/b/c.txt" = Some true
  /\ Matches no_rel stat_file (mkPatternList [compiled_rule "**/"] "/proj") "a/b/c.txt" = Some false.
Proof.
  refine (Matches_double_star_rule_excludes_all no_rel stat_file "/proj" "a/b/c.txt" "a/b/c.txt" false _ _);
    reflexivity.
Defined.

(** *** [splitPattern], [strings.Join] and [filepath.Clean] *)

Lemma string_app_assoc (a b c : string) : ((a ++ b) ++ c) = (a ++ (b ++ c)).
Proof. induction a as [|x a IH]; simpl; [reflexivity|]. rewrite IH. reflexivity. Qed.

Lemma string_app_nil (a : string) : (a ++ "") = a.
Proof. induction a as [|x a IH]; simpl; [reflexivity|]. rewrite IH. reflexivity. Qed.

Lemma split_aux_head (s cur : string) :
  cur <> "" -> exists x rest, split_aux s cur = x :: rest /\ x <> "".
Proof.
  revert cur; induction s as [|c s IH]; intros cur Hc; simpl.
  - eauto.
  - destruct (Ascii.eqb c slash); [eauto|].
    apply IH. destruct cur; discriminate.
Qed.

Lemma split_aux_cons (s cur : string) : exists x rest, split_aux s cur = x :: rest.
Proof.
  revert cur; induction s as [|c s IH]; intros cur; simpl; [eauto|].
  destruct (Ascii.eqb c slash); eauto.
Qed.

Lemma Join_cons_cons (x y : string) (ys : list string) :
  Join (x :: y :: ys) = (x ++ "/" ++ Join (y :: ys)).
Proof. reflexivity. Qed.

Lemma Join_split_aux (s cur : string) : Join (split_aux s cur) = (cur ++ s).
Proof.
  revert cur; induction s as [|c s IH]; intros cur; simpl.
  - rewrite string_app_nil. reflexivity.
  - destruct (Ascii.eqb c slash) eqn:E.
    + apply Ascii.eqb_eq in E. subst c.
      destruct (split_aux_cons s "") as (y & ys & Hy).
      rewrite Hy, Join_cons_cons, <- Hy, IH. reflexivity.
    + rewrite IH, string_app_assoc. reflexivity.
Qed.

Lemma restore_app (a b : string) :
  restore_dstar (a ++ b) = (restore_dstar a ++ restore_dstar b).
Proof.
  induction a as [|c a IH]; simpl; [reflexivity|].
  destruct (Ascii.eqb c nul); rewrite IH; reflexivity.
Qed.

Lemma Join_map_restore (l : list string) :
  Join (map restore_dstar l) = restore_dstar (Join l).
Proof.
  induction l as [|x [|y ys] IH]; [reflexivity|reflexivity|].
  change (map restore_dstar (x :: y :: ys)) with
    (restore_dstar x :: restore_dstar y :: map restore_dstar ys).
  rewrite Join_cons_cons, Join_cons_cons, restore_app, restore_app.
  change (restore_dstar y :: map restore_dstar ys) with (map restore_dstar (y :: ys)).
  rewrite IH. reflexivity.
Qed.

Lemma replace_dstar_cons (c : ascii) (r : string) :
  replace_dstar (String c r) =
  if Ascii.eqb c "*" then
    match r with
    | String d r' => if Ascii.eqb d "*" then String nul (replace_dstar r')
                     else String c (replace_dstar r)
    | EmptyString => String c EmptyString
    end
  else String c (replace_dstar r).
Proof.
  destruct c as [[] [] [] [] [] [] [] []]; try reflexivity.
  destruct r as [|d r']; [reflexivity|].
  destruct d as [[] [] [] [] [] [] [] []]; reflexivity.
Qed.

Lemma restore_replace (s : string) :
  ~ In nul (list_ascii_of_string s) -> restore_dstar (replace_dstar s) = s.
Proof.
  remember (String.length s) as n eqn:En.
  revert s En; induction n as [n IH] using lt_wf_ind; intros s En Hn.
  destruct s as [|c r]; [reflexivity|].
  assert (Hc : Ascii.eqb c nul = false).
  { apply Ascii.eqb_neq. intros ->. apply Hn. left. reflexivity. }
  assert (Hr : ~ In nul (list_ascii_of_string r)).
  { intros H. apply Hn. right. exact H. }
  rewrite replace_dstar_cons.
  destruct (Ascii.eqb c "*") eqn:Ec.
  - destruct r as [|d r']; [cbn [restore_dstar]; rewrite Hc; reflexivity|].
    destruct (Ascii.eqb d "*") eqn:Ed.
    + apply Ascii.eqb_eq in Ec, Ed. subst c d. cbn [restore_dstar].
      rewrite Ascii.eqb_refl.
      rewrite (IH (String.length r')); [reflexivity| simpl in En; lia | reflexivity |].
      intros H. apply Hr. right. exact H.
    + cbn [restore_dstar]. rewrite Hc.
      rewrite (IH (String.length (String d r'))); [reflexivity|simpl in *; lia|reflexivity|exact Hr].
  - cbn [restore_dstar]. rewrite Hc.
    rewrite (IH (String.length r)); [reflexivity|simpl in *; lia|reflexivity|exact Hr].
Qed.

Lemma Join_splitPattern (pattern : string) :
  ~ In nul (list_ascii_of_string pattern) -> Join (splitPattern pattern) = pattern.
Proof.
  intros Hn. unfold splitPattern, Split.
  rewrite Join_map_restore, Join_split_aux. simpl. apply restore_replace, Hn.
Qed.

(** [splitPattern] loses nothing: joining its segments with ['/'] gives the
    pattern back, for any pattern without a NUL byte (the byte it uses to
    protect ['**']). *)
Theorem splitPattern_Join (pattern : string) :
  ~ In nul (list_ascii_of_string pattern) -> Join (splitPattern pattern) = pattern.
Proof. apply Join_splitPattern. Qed.

Lemma splitPattern_Join_witness : Join (splitPattern "src/**/*.go") = "src/**/*.go".
Proof. apply splitPattern_Join. simpl. intuition discriminate. Defined.



Lemma split_aux_no_slash_head (s cur : string) :
  (cur = "" \/ starts_off_slash cur) ->
  Forall (fun x => x = "" \/ starts_off_slash x) (split_aux s cur).
Proof.
  revert cur; induction s as [|c s IH]; intros cur Hc; simpl.
  - constructor; [exact Hc | constructor].
  - destruct (Ascii.eqb c slash) eqn:E.
    + constructor; [exact Hc|]. apply IH. left. reflexivity.
    + apply IH. right. destruct Hc as [->|(c0 & s0 & -> & H0)].
      * exists c, "". split; [reflexivity|exact E].
      * exists c0, (s0 ++ String c ""). split; [reflexivity|exact H0].
Qed.

Lemma clean_fold_relative (segs stk : list string) :
  Forall starts_off_slash stk ->
  Forall (fun x => x = "" \/ starts_off_slash x) segs ->
  Forall starts_off_slash (fold_left (clean_step false) segs stk).
Proof.
  revert stk; induction segs as [|seg segs IH]; intros stk Hs Hg; simpl; [exact Hs|].
  inversion Hg as [|? ? Hseg Hrest]; subst.
  apply IH; [|exact Hrest].
  unfold clean_step.
  destruct (String.eqb seg "" || String.eqb seg ".") eqn:E1; [exact Hs|].
  destruct (String.eqb seg "..") eqn:E2.
  - destruct stk as [|top rest].
    + constructor; [exists "."%char, "."%string; split; reflexivity | constructor].
    + destruct (String.eqb top ".."); [|inversion Hs; assumption].
      constructor; [exists "."%char, "."%string; split; reflexivity | exact Hs].
  - constructor; [|exact Hs]. destruct Hseg as [->|Hseg]; [discriminate|exact Hseg].
Qed.

Lemma Clean_relative_head (q : string) :
  IsAbs q = false -> starts_off_slash (Clean q).
Proof.
  intros Hq. unfold Clean. rewrite Hq.
  destruct (String.eqb q "") eqn:E; [exists "."%char, ""%string; split; reflexivity|].
  assert (Hf : Forall starts_off_slash (rev (fold_left (clean_step false) (Split q) []))).
  { apply Forall_rev, clean_fold_relative; [constructor|].
    apply split_aux_no_slash_head. left. reflexivity. }
  destruct (rev (fold_left (clean_step false) (Split q) [])) as [|x xs].
  - exists "."%char, ""%string; split; reflexivity.
  - inversion Hf as [|? ? (c & s & -> & Hc) _]; subst.
    destruct xs as [|y ys].
    + exists c, s. split; [reflexivity|exact Hc].
    + rewrite Join_cons_cons. exists c, (s ++ "/" ++ Join (y :: ys)).
      split; [reflexivity|exact Hc].
Qed.

Lemma Clean_rooted_head (p : string) :
  IsAbs p = true -> exists body, Clean p = String "/" body.
Proof.
  intros Hp. unfold Clean. rewrite Hp.
  destruct (String.eqb p "") eqn:E.
  - apply String.eqb_eq in E. subst. discriminate.
  - eexists. reflexivity.
Qed.

(** A rule whose text (after ['!'] and the trailing ['/'] are removed)
    starts with ['/'] never matches a cleaned relative path, the only kind
    [PatternList.Matches] compares once the path is made relative. *)
Theorem rooted_rule_never_matches_relative (line q : string) (d : bool) :
  HasPrefix (stripped line) "/" = true -> IsAbs q = false ->
  matches (compiled_rule line) (Clean q) d = Some false.
Proof.
  intros Hl Hq.
  destruct (Clean_rooted_head (stripped line) Hl) as [body Hb].
  destruct (Clean_relative_head q Hq) as (c & s & Hc & Hcs).
  unfold matches, compiled_rule. cbn [isDir isExact segments]. rewrite Hb, Hc.
  destruct (HasSuffix line "/" && negb d); [reflexivity|].
  assert (Hsp : exists y ys, splitPattern (String "/" body) = "" :: y :: ys).
  { unfold splitPattern. rewrite replace_dstar_cons. cbn [Ascii.eqb Bool.eqb].
    unfold Split. cbn [split_aux Ascii.eqb Bool.eqb slash].
    destruct (split_aux_cons (replace_dstar body) "") as (y & ys & Hy). rewrite Hy.
    exists (restore_dstar y), (map restore_dstar ys). reflexivity. }
  destruct Hsp as (y & ys & Hsp). rewrite Hsp.
  destruct (negb (Contains (String "/" body) "*") || Contains (String "/" body) "?").
  - rewrite Join_cons_cons. f_equal. apply String.eqb_neq. intros H.
    injection H as H _. subst c. discriminate Hcs.
  - assert (Hs : Split (String c s) = split_aux s (String c "")).
    { unfold Split. simpl. rewrite Hcs. reflexivity. }
    rewrite Hs.
    destruct (split_aux_head s (String c "")) as (x & rest & Hx & Hxne); [discriminate|].
    rewrite Hx. cbn [matchSegments String.eqb].
    unfold matchWildcard. destruct x as [|a x]; [contradiction|reflexivity].
Qed.

Lemma rooted_rule_never_matches_relative_witness :
  matches (compiled_rule "/build") (Clean "build") false = Some false.
Proof.
  apply rooted_rule_never_matches_relative; reflexivity.
Defined.

(** ** Properties of the walk *)

Module WalkProofs.
Import Walk.
Import WalkSpec.

Lemma Entry_ind_nested (P : Entry -> Prop) :
  (forall e, Forall P (e_children e) -> P e) -> forall e, P e.
Proof.
  intros H. fix IH 1. intros [nm ie d sz se oo re cs]. apply H. cbn [e_children].
  exact ((fix F (l : list Entry) : Forall P l :=
            match l with
            | [] => Forall_nil P
            | c :: l' => Forall_cons c (IH c) (F l')
            end) cs).
Qed.

Lemma TreeNode_ind_nested (P : TreeNode -> Prop) :
  (forall t, Forall P (children t) -> P t) -> forall t, P t.
Proof.
  intros H. fix IH 1. intros [nm d cs]. apply H. cbn [children].
  exact ((fix F (l : list TreeNode) : Forall P l :=
            match l with
            | [] => Forall_nil P
            | c :: l' => Forall_cons c (IH c) (F l')
            end) cs).
Qed.

Section WalkerProofs.
Variable Rel : string -> string -> option string.
Variable ToLower : string -> string.

(** The verdict of [shouldSkipFile] once [Info()] succeeded. *)
Lemma shouldSkipFile_ok (e : Entry) (p : string) (m : option PatternList) (b : bool) :
  e_info_err e = None ->
  match m with None => Some false | Some pl => Matches Rel (entry_stat e) pl p end = Some b ->
  shouldSkipFile Rel ToLower e p m =
  Ok (b || lookup skipFiles (e_name e)
        || (if e_isDir e then lookup skipDirs (e_name e)
            else lookup skipExtensions (ToLower (Ext (e_name e)))
                 || (maxFileSize <? e_size e)%Z || negb (e_open_ok e))).
Proof.
  intros Hi Hm. unfold shouldSkipFile, checkReadPermission. rewrite Hi.
  destruct m as [pl|].
  - rewrite Hm. destruct b; [reflexivity|].
    destruct (lookup skipFiles (e_name e)); [reflexivity|].
    destruct (e_isDir e); cbn [andb negb orb];
      [destruct (lookup skipDirs (e_name e)); reflexivity|].
    destruct (lookup skipExtensions (ToLower (Ext (e_name e)))); [reflexivity|].
    destruct (maxFileSize <? e_size e)%Z; [reflexivity|].
    destruct (e_open_ok e); reflexivity.
  - injection Hm as <-.
    destruct (lookup skipFiles (e_name e)); [reflexivity|].
    destruct (e_isDir e); cbn [andb negb orb];
      [destruct (lookup skipDirs (e_name e)); reflexivity|].
    destruct (lookup skipExtensions (ToLower (Ext (e_name e)))); [reflexivity|].
    destruct (maxFileSize <? e_size e)%Z; [reflexivity|].
    destruct (e_open_ok e); reflexivity.
Qed.

Lemma shouldSkipFile_result (e : Entry) (p : string) (m : option PatternList) :
  match e_info_err e with
  | Some err => shouldSkipFile Rel ToLower e p m = Err ("error getting file info: " ++ err)
  | None => exists b, shouldSkipFile Rel ToLower e p m = Ok b
  end.
Proof.
  destruct (e_info_err e) as [err|] eqn:Hi.
  - unfold shouldSkipFile. rewrite Hi. reflexivity.
  - assert (Hm : exists b, match m with None => Some false
                           | Some pl => Matches Rel (entry_stat e) pl p end = Some b).
    { destruct m as [pl|]; [apply Matches_total | eauto]. }
    destruct Hm as [b Hm]. rewrite (shouldSkipFile_ok e p m b Hi Hm). eauto.
Qed.


(** The children loop of [createTree], through its two equations. *)
Lemma createTree_loop (root : string) (m : option PatternList) (nm : string) (dir : bool)
  (loop : list Entry -> list TreeNode -> res TreeNode) :
  (forall acc, loop [] acc = Ok (mkTreeNode nm dir acc)) ->
  (forall ce es acc, loop (ce :: es) acc =
     match shouldSkipFile Rel ToLower ce (FJoin root (e_name ce)) m with
     | Err err => Err ("error checking file " ++ FJoin root (e_name ce) ++ ": " ++ err)
     | Panic => Panic
     | Ok true => loop es acc
     | Ok false =>
         match createTree Rel ToLower (FJoin root (e_name ce)) m ce with
         | Ok childNode => loop es (acc ++ [childNode])%list
         | Err err => Err err
         | Panic => Panic
         end
     end) ->
  forall es acc,
  (Forall (fun ce => createTree Rel ToLower (FJoin root (e_name ce)) m ce <> Panic) es ->
   loop es acc <> Panic) /\
  (forall t, loop es acc = Ok t ->
   exists cs, t = mkTreeNode nm dir (acc ++ cs)%list /\
     Forall2 (fun ce c => createTree Rel ToLower (FJoin root (e_name ce)) m ce = Ok c)
             (filter (kept Rel ToLower m root) es) cs).
Proof.
  intros Hnil Hcons es. induction es as [|ce es IH]; intros acc.
  - split; [rewrite Hnil; discriminate|].
    intros t Ht. rewrite Hnil in Ht. injection Ht as <-.
    exists []. rewrite app_nil_r. split; [reflexivity|constructor].
  - rewrite Hcons. cbn [filter]. unfold kept at 1.
    pose proof (shouldSkipFile_result ce (FJoin root (e_name ce)) m) as Hr.
    destruct (e_info_err ce) as [err|].
    { rewrite Hr. split; [discriminate|]. intros t Ht; discriminate Ht. }
    destruct Hr as [[|] Hr]; rewrite Hr.
    + split; [|exact (proj2 (IH acc))].
      intros Hf. inversion Hf; subst. apply (proj1 (IH acc)). assumption.
    + split.
      * intros Hf. inversion Hf as [|? ? Hce Hes]; subst.
        destruct (createTree Rel ToLower (FJoin root (e_name ce)) m ce) as [c| |];
          [apply (IH _) | discriminate | contradiction]; exact Hes.
      * intros t Ht.
        destruct (createTree Rel ToLower (FJoin root (e_name ce)) m ce) as [c| |] eqn:Hc;
          [|discriminate|discriminate].
        destruct (proj2 (IH (acc ++ [c])%list) t Ht) as (cs & -> & Hcs).
        exists (c :: cs). rewrite <- app_assoc. split; [reflexivity|].
        constructor; [exact Hc|exact Hcs].
Qed.

Lemma createTree_unfold_dir (root : string) (m : option PatternList) (e : Entry) :
  e_stat_err e = None -> e_isDir e = true -> e_readdir_err e = None ->
  forall P : res TreeNode -> Prop,
  (forall loop : list Entry -> list TreeNode -> res TreeNode,
    (forall acc, loop [] acc = Ok (mkTreeNode (e_name e) true acc)) ->
    (forall ce es acc, loop (ce :: es) acc =
       match shouldSkipFile Rel ToLower ce (FJoin root (e_name ce)) m with
       | Err err => Err ("error checking file " ++ FJoin root (e_name ce) ++ ": " ++ err)
       | Panic => Panic
       | Ok true => loop es acc
       | Ok false =>
           match createTree Rel ToLower (FJoin root (e_name ce)) m ce with
           | Ok childNode => loop es (acc ++ [childNode])%list
           | Err err => Err err
           | Panic => Panic
           end
       end) ->
    P (loop (e_children e) [])) ->
  P (createTree Rel ToLower root m e).
Proof.
  destruct e as [nm ie d sz se oo re cs]; cbn [e_stat_err e_isDir e_readdir_err e_children e_name].
  intros -> -> -> P HP. apply HP; intros; reflexivity.
Qed.

(** [createTree] never panics: it returns a tree or an error. *)
Theorem createTree_ok_or_error (root : string) (m : option PatternList) (e : Entry) :
  (exists t, createTree Rel ToLower root m e = Ok t) \/
  (exists msg, createTree Rel ToLower root m e = Err msg).
Proof.
  enough (H : forall e root, createTree Rel ToLower root m e <> Panic).
  { specialize (H e root). destruct (createTree Rel ToLower root m e); eauto; contradiction. }
  clear root e. apply (Entry_ind_nested (fun e => forall root, _ <> Panic)).
  intros e IH root.
  destruct (e_stat_err e) eqn:Hs.
  { destruct e; cbn in *; subst; discriminate. }
  destruct (e_isDir e) eqn:Hd.
  2:{ destruct e; cbn in *; subst; discriminate. }
  destruct (e_readdir_err e) eqn:Hrd.
  { destruct e; cbn in *; subst; discriminate. }
  apply (createTree_unfold_dir root m e Hs Hd Hrd (fun r => r <> Panic)).
  intros loop Hnil Hcons. apply (proj1 (createTree_loop root m _ _ loop Hnil Hcons _ [])).
  eapply Forall_impl; [|exact IH]. intros ce Hce. apply Hce.
Qed.


Lemma Forall_filter_sub {A : Type} (P : A -> Prop) (f : A -> bool) (l : list A) :
  Forall P l -> Forall P (filter f l).
Proof.
  intros H. apply Forall_forall. intros x Hx. apply filter_In in Hx as [Hx _].
  rewrite Forall_forall in H. apply H. exact Hx.
Qed.

Lemma Forall2_Forall_impl {A B : Type} (P : A -> Prop) (R R' : A -> B -> Prop)
  (l : list A) (l' : list B) :
  Forall P l -> Forall2 R l l' -> (forall x y, P x -> R x y -> R' x y) -> Forall2 R' l l'.
Proof.
  intros HP HR Himp. induction HR as [|x y l l' Hxy Hrest IH]; constructor.
  - inversion HP; subst. apply Himp; assumption.
  - inversion HP; subst. apply IH. assumption.
Qed.

Lemma createTree_kept (root : string) (m : option PatternList) (e : Entry) (t : TreeNode) :
  createTree Rel ToLower root m e = Ok t -> kept_tree Rel ToLower m root e t.
Proof.
  revert root t. induction e as [e IH] using Entry_ind_nested. intros root t Ht.
  destruct (e_stat_err e) eqn:Hs.
  { destruct e; cbn in *; subst; discriminate. }
  destruct (e_isDir e) eqn:Hd.
  2:{ destruct e; cbn in *; subst. injection Ht as <-.
      apply kept_file; cbn; reflexivity. }
  destruct (e_readdir_err e) eqn:Hrd.
  { destruct e; cbn in *; subst; discriminate. }
  revert Ht.
  apply (createTree_unfold_dir root m e Hs Hd Hrd (fun r => r = Ok t -> _)).
  intros loop Hnil Hcons Ht.
  destruct (proj2 (createTree_loop root m _ _ loop Hnil Hcons _ []) t Ht) as (cs & -> & Hcs).
  apply kept_dir; cbn; [reflexivity|exact Hd|reflexivity|].
  apply (Forall2_Forall_impl _ _ _ _ _ (Forall_filter_sub _ _ _ IH) Hcs).
  intros ce c Hce Hc. apply Hce. exact Hc.
Qed.




Lemma kept_tree_leaf_files (m : option PatternList) (t : TreeNode) :
  forall root e, kept_tree Rel ToLower m root e t -> leaf_files t = true.
Proof.
  induction t as [t IH] using TreeNode_ind_nested. intros root e Hk.
  destruct t as [nm d cs]. cbn [leaf_files]. cbn [children] in IH.
  inversion Hk as [? ? ? _ _ Hd Hc | ? ? ? _ _ Hd H2]; subst; cbn [isDir children] in *.
  - subst. reflexivity.
  - subst. cbn [orb andb].
    remember (filter (kept Rel ToLower m root) (e_children e)) as l eqn:El. clear El Hk.
    induction H2 as [|ce c l cs Hce Hrest IHl]; [reflexivity|].
    inversion IH as [|? ? IHc IHcs]; subst.
    cbn [forallb]. rewrite (IHc _ _ Hce). apply IHl. exact IHcs.
Qed.



(** Once [Info()] has succeeded and the ignore list (if any) has answered
    [b], [shouldSkipFile] skips the entry iff [b], or its name is in
    [skipFiles], or it is a directory named in [skipDirs], or it is a file
    whose lower-cased extension is in [skipExtensions], whose size exceeds
    50 MiB or which cannot be opened. *)
Theorem shouldSkipFile_verdict (e : Entry) (p : string) (m : option PatternList) (b : bool) :
  e_info_err e = None ->
  match m with None => Some false | Some pl => Matches Rel (entry_stat e) pl p end = Some b ->
  shouldSkipFile Rel ToLower e p m =
  Ok (b || lookup skipFiles (e_name e)
        || (if e_isDir e then lookup skipDirs (e_name e)
            else lookup skipExtensions (ToLower (Ext (e_name e)))
                 || (maxFileSize <? e_size e)%Z || negb (e_open_ok e))).
Proof. apply shouldSkipFile_ok. Qed.

(** [shouldSkipFile] never panics: it fails exactly when [Info()] fails,
    with that error wrapped, and otherwise returns a verdict. *)
Theorem shouldSkipFile_fails_only_on_info (e : Entry) (p : string) (m : option PatternList) :
  match e_info_err e with
  | Some err => shouldSkipFile Rel ToLower e p m = Err ("error getting file info: " ++ err)
  | None => exists b, shouldSkipFile Rel ToLower e p m = Ok b
  end.
Proof. apply shouldSkipFile_result. Qed.

End WalkerProofs.

Lemma printTree_loop (R : string -> TreeNode -> Prop) (pre : string) (last : nat -> bool)
  (loop : list TreeNode -> nat -> list string) :
  (forall i, loop [] i = []) ->
  (forall c cs i, loop (c :: cs) i = (printTree c pre (last i) ++ loop cs (S i))%list) ->
  forall cs i,
  Forall (fun c => forall p b, Forall2 R (printTree c p b) (preorder c)) cs ->
  Forall2 R (loop cs i) (concat (map preorder cs)).
Proof.
  intros Hnil Hcons cs. induction cs as [|c cs IH]; intros i Hf.
  - rewrite Hnil. constructor.
  - rewrite Hcons. inversion Hf as [|? ? Hc Hcs]; subst.
    cbn [map concat]. apply Forall2_app; [apply Hc | apply IH; exact Hcs].
Qed.

(** [printTree] prints one line per node, in preorder, each line ending
    with the node's name (in brackets for a directory); called with the
    empty prefix, the first line is the root's name alone. *)
Theorem printTree_lines (t : TreeNode) (prefix : string) (isLast : bool) :
  Forall2 (fun l n => exists pre, l = (pre ++ display n)%string)
          (printTree t prefix isLast) (preorder t)
  /\ hd "" (printTree t "" isLast) = display t.
Proof.
  split; [|destruct t as [nm [|] cs]; reflexivity].
  revert prefix isLast.
  induction t as [t IH] using TreeNode_ind_nested. intros prefix isLast.
  destruct t as [nm d chs]. cbn [children] in IH. cbn [printTree preorder].
  constructor.
  - eexists. destruct d; reflexivity.
  - apply (printTree_loop _
      (if String.eqb prefix "" then "    "
       else if isLast then prefix ++ "    " else prefix ++ "│   ")
      (fun i => Nat.eqb i (List.length chs - 1))); [reflexivity|reflexivity|].
    exact IH.
Qed.

Section ContentsProofs.
Variable fs_stat : string -> StatRes.
Variable fs_read : string -> option string.

Lemma writeFileContents_loop (fp : string) (loop : list TreeNode -> list string -> list string * option string) :
  (forall w, loop [] w = (w, None)) ->
  (forall c cs w, loop (c :: cs) w =
     match writeFileContents fs_stat fs_read c fp with
     | (wc, Some err) => ((w ++ wc)%list, Some err)
     | (wc, None) => loop cs (w ++ wc)%list
     end) ->
  forall cs w,
  Forall (fun c => forall cur, leaf_files c = true ->
            Forall (fun pn => stat_error_free fs_stat (fst pn)) (file_paths c cur) ->
            writeFileContents fs_stat fs_read c cur =
            (concat (map (file_block fs_stat fs_read) (file_paths c cur)), None)) cs ->
  forallb leaf_files cs = true ->
  Forall (fun pn => stat_error_free fs_stat (fst pn))
         (concat (map (fun c => file_paths c fp) cs)) ->
  loop cs w = ((w ++ concat (map (file_block fs_stat fs_read)
                                 (concat (map (fun c => file_paths c fp) cs))))%list, None).
Proof.
  intros Hnil Hcons cs. induction cs as [|c cs IH]; intros w Hf Hl Hs.
  - rewrite Hnil, app_nil_r. reflexivity.
  - rewrite Hcons. inversion Hf as [|? ? Hc Hcs]; subst.
    cbn [forallb] in Hl. apply andb_true_iff in Hl as [Hl1 Hl2].
    cbn [map concat] in Hs |- *. apply Forall_app in Hs as [Hs1 Hs2].
    rewrite (Hc fp Hl1 Hs1). rewrite (IH _ Hcs Hl2 Hs2).
    rewrite map_app, concat_app, app_assoc. reflexivity.
Qed.

Lemma writeFileContents_ok (t : TreeNode) :
  forall currentPath, leaf_files t = true ->
  Forall (fun pn => stat_error_free fs_stat (fst pn)) (file_paths t currentPath) ->
  writeFileContents fs_stat fs_read t currentPath =
  (concat (map (file_block fs_stat fs_read) (file_paths t currentPath)), None).
Proof.
  induction t as [t IH] using TreeNode_ind_nested. intros cur Hl Hs.
  destruct t as [nm d chs]. cbn [children] in IH.
  destruct d.
  - cbn [writeFileContents negb file_paths]. cbn [leaf_files orb andb] in Hl.
    cbn [file_paths] in Hs.
    apply (writeFileContents_loop (FJoin cur nm)); [reflexivity|reflexivity|exact IH|exact Hl|exact Hs].
  - cbn [leaf_files orb andb] in Hl. destruct chs; [|discriminate].
    cbn [file_paths] in Hs |- *. inversion Hs as [|? ? Hp _]; subst.
    unfold stat_error_free in Hp. cbn [fst] in Hp.
    cbn [writeFileContents negb map concat file_block]. unfold file_block.
    destruct (fs_stat (FJoin cur nm)); [|reflexivity|contradiction].
    destruct (fs_read (FJoin cur nm)); reflexivity.
Qed.

(** On a tree whose files have no children, if [os.Stat] fails with an
    error other than "not exist" on none of its files, [writeFileContents]
    succeeds and writes, in preorder, for each file the three writes
    ["<name>\n"], its contents and ["\n</name>\n"] when it exists and is
    readable, and nothing for the others. *)
Theorem writeFileContents_blocks (t : TreeNode) (currentPath : string) :
  leaf_files t = true ->
  Forall (fun pn => stat_error_free fs_stat (fst pn)) (file_paths t currentPath) ->
  writeFileContents fs_stat fs_read t currentPath =
  (concat (map (file_block fs_stat fs_read) (file_paths t currentPath)), None).
Proof. apply writeFileContents_ok. Qed.

Variable Rel : string -> string -> option string.
Variable ToLower : string -> string.

(** The tree [createTree] returns can be written by [writeFileContents]
    without error when no [os.Stat] on its files fails with an error other
    than "not exist": the output is the files' blocks, in preorder. *)
Theorem createTree_then_writeFileContents (root : string) (m : option PatternList)
  (e : Entry) (t : TreeNode) (currentPath : string) :
  createTree Rel ToLower root m e = Ok t ->
  Forall (fun pn => stat_error_free fs_stat (fst pn)) (file_paths t currentPath) ->
  writeFileContents fs_stat fs_read t currentPath =
  (concat (map (file_block fs_stat fs_read) (file_paths t currentPath)), None).
Proof.
  intros Ht Hs. apply writeFileContents_ok; [|exact Hs].
  eapply kept_tree_leaf_files. apply createTree_kept. exact Ht.
Qed.

End ContentsProofs.

Lemma shouldSkipFile_verdict_witness :
  shouldSkipFile (fun _ _ => None) (fun s => s)
    (mkEntry "logo.png" None false 50 None true None []) "/proj/logo.png" None = Ok true.
Proof.
  rewrite (shouldSkipFile_verdict (fun _ _ => None) (fun s => s)
             (mkEntry "logo.png" None false 50 None true None []) "/proj/logo.png" None false);
    reflexivity.
Defined.



Lemma writeFileContents_blocks_witness :
  writeFileContents (fun _ => StOk)
    (fun p => if String.eqb p "/proj/main.go" then Some "package main" else None)
    (mkTreeNode "proj" true
       [mkTreeNode "main.go" false [];
        mkTreeNode "docs" true [mkTreeNode "unreadable.txt" false []]]) "/"
  = (["<main.go>" ++ nl; "package main"; nl ++ "</main.go>" ++ nl], None).
Proof.
  rewrite (writeFileContents_blocks (fun _ => StOk)
    (fun p => if String.eqb p "/proj/main.go" then Some "package main" else None)
    (mkTreeNode "proj" true
       [mkTreeNode "main.go" false [];
        mkTreeNode "docs" true [mkTreeNode "unreadable.txt" false []]]) "/").
  - vm_compute. reflexivity.
  - reflexivity.
  - vm_compute. repeat constructor.
Defined.

Lemma createTree_then_writeFileContents_witness :
  writeFileContents (fun _ => StOk) (fun _ => Some "x")
    (mkTreeNode "proj" true [mkTreeNode "main.go" false []]) "/"
  = (["<main.go>" ++ nl; "x"; nl ++ "</main.go>" ++ nl], None).
Proof.
  rewrite (createTree_then_writeFileContents (fun _ => StOk) (fun _ => Some "x")
    (fun _ _ => None) (fun s => s) "/proj" None
    (mkEntry "proj" None true 0 None true None
       [mkEntry "main.go" None false 120 None true None [];
        mkEntry "app.log" None false 9 None true None []])
    (mkTreeNode "proj" true [mkTreeNode "main.go" false []]) "/").
  - vm_compute. reflexivity.
  - vm_compute. reflexivity.
  - vm_compute. repeat constructor.
Defined.

End WalkProofs.
